(** * Levant plan: the proceed-or-stop decision and the plan-diff walker

    A shallow embedding of [levant/plan.go]: the [plan] entry point that
    decides from Nomad's speculative job diff whether a deployment goes
    ahead, and the walker ([planDiff], [recurseObjDiff], [logDiffObj]) that
    logs one line per edited field.

    Go strings are byte strings and are modelled by [string]; slices are
    lists; the process-wide zerolog logger is an append-only sequence of
    events, carried by a writer monad. *)

From stdpp Require Import base list strings.
From Stdlib Require Import String Ascii.

Open Scope string_scope.
Open Scope list_scope.
Open Scope stdpp_scope.

(** ** The logger *)

Module Log.

Inductive Level := Debug | Info | Error.

(** One zerolog event: its level, the error attached with [.Err(err)]
    (if any) and the message handed to [.Msg]/[.Msgf]. *)
Record Event := mkEvent {
  level : Level;
  attached : option string;
  message : string
}.

(** A computation that returns an [A] and appends events to the log. *)
Definition Logged (A : Type) : Type := (A * list Event)%type.

Definition ret {A} (a : A) : Logged A := (a, []).

Definition bind {A B} (m : Logged A) (k : A -> Logged B) : Logged B :=
  let '(a, w1) := m in
  let '(b, w2) := k a in
  (b, w1 ++ w2).

Definition emit (lv : Level) (e : option string) (msg : string) : Logged unit :=
  (tt, [mkEvent lv e msg]).

(** The events a computation wrote, in order. *)
Definition written {A} (m : Logged A) : list Event := snd m.

(** The value a computation returned. *)
Definition result {A} (m : Logged A) : A := fst m.

End Log.

Import Log.

Notation "x <- c1 ;; c2" := (bind c1 (fun x => c2))
  (at level 100, c1 at next level, right associativity).
Notation "c1 ;; c2" := (bind c1 (fun _ => c2))
  (at level 100, right associativity).

(** ** Loops

    [for _, x := range xs { body }] in its two uses: a body that always
    falls through to the next iteration, and a body that may execute
    [return] and so leave the enclosing function. *)

Inductive Flow := Next | Return.

Definition forRange {A} (body : A -> Logged unit) : list A -> Logged unit :=
  fix go (xs : list A) : Logged unit :=
    match xs with
    | [] => ret tt
    | x :: rest => body x ;; go rest
    end.

Definition forRangeRet {A} (body : A -> Logged Flow) : list A -> Logged Flow :=
  fix go (xs : list A) : Logged Flow :=
    match xs with
    | [] => ret Next
    | x :: rest =>
        c <- body x ;;
        match c with
        | Next => go rest
        | Return => ret Return
        end
    end.

(** ** The diff tree (github.com/hashicorp/nomad/api) *)

(** [nomadStructs.DiffTypeAdded], [DiffTypeEdited] and [DiffTypeNone]. *)
Definition diffTypeAdded : string := "Added".
Definition diffTypeEdited : string := "Edited".
Definition diffTypeNone : string := "None".

(** [api.FieldDiff]; [Type] is a reserved word, hence [FType]. *)
Record FieldDiff := mkFieldDiff {
  FType : string;
  FName : string;
  Old : string;
  New : string
}.

(** [api.ObjectDiff]: the recursive node. Its induction principle is
    stated by hand below ([ObjectDiff_ind]), the generated one being too weak
    for a type nested in [list]. *)
Local Unset Elimination Schemes.
Inductive ObjectDiff := mkObjectDiff
  (OType : string) (OName : string)
  (Fields : list FieldDiff) (Objects : list ObjectDiff).
Local Set Elimination Schemes.

Definition OType (o : ObjectDiff) : string :=
  match o with mkObjectDiff ty _ _ _ => ty end.
Definition OName (o : ObjectDiff) : string :=
  match o with mkObjectDiff _ n _ _ => n end.
Definition Fields (o : ObjectDiff) : list FieldDiff :=
  match o with mkObjectDiff _ _ fs _ => fs end.
Definition Objects (o : ObjectDiff) : list ObjectDiff :=
  match o with mkObjectDiff _ _ _ os => os end.

(** [api.TaskDiff]. *)
Record TaskDiff := mkTaskDiff {
  TType : string;
  TName : string;
  TObjects : list ObjectDiff
}.

(** [api.TaskGroupDiff]. *)
Record TaskGroupDiff := mkTaskGroupDiff {
  GType : string;
  GName : string;
  GObjects : list ObjectDiff;
  Tasks : list TaskDiff
}.

(** [api.JobDiff]. *)
Record JobDiff := mkJobDiff {
  JType : string;
  TaskGroups : list TaskGroupDiff
}.

(** [api.JobPlanResponse]; [Diff] is a pointer and may be nil. *)
Record JobPlanResponse := mkJobPlanResponse {
  Diff : option JobDiff
}.

(** What [l.nomad.Jobs().Plan(l.config.Job, true, nil)] handed back: the
    response pointer and the error, as Go returns them side by side. *)
Record PlanReply := mkPlanReply {
  resp : option JobPlanResponse;
  err : option string
}.

(** ** The walker *)

(** [logDiffObj]: [fmt.Sprintf] with [%s] verbs over strings is
    concatenation. *)
Definition logDiffObj (g t objName fName fOld fNew : string) : Logged unit :=
  let lEnd := "plan indicates change of " +:+ objName +:+ ":" +:+ fName
              +:+ " from " +:+ fOld +:+ " to " +:+ fNew in
  let lStart := if (g =? "")%string then "" else "group " +:+ g +:+ " " in
  let lStart := if (t =? "")%string then lStart
                else lStart +:+ ("and task " +:+ t +:+ " ") in
  let l := if (lStart =? "")%string then lEnd else lStart +:+ lEnd in
  emit Info None ("levant/plan: " +:+ l).

(** [recurseObjDiff]. *)
Fixpoint recurseObjDiff (g t : string) (objDiff : ObjectDiff) : Logged unit :=
  match objDiff with
  | mkObjectDiff oType oName fields objects =>
      if (List.length objects =? 0)%nat && (0 <? List.length fields)%nat
         && (oType =? diffTypeEdited)%string
      then
        forRange (fun f =>
          if negb (FType f =? diffTypeEdited)%string then ret tt
          else logDiffObj g t oName (FName f) (Old f) (New f)) fields
      else
        forRange (recurseObjDiff g t) objects
  end.

(** [planDiff]: the [return] inside the task loop leaves the function. *)
Definition planDiff (plan : JobDiff) : Logged unit :=
  forRangeRet (fun tg =>
    if negb (GType tg =? diffTypeEdited)%string then ret Next
    else
      forRange (recurseObjDiff (GName tg) "") (GObjects tg) ;;
      forRangeRet (fun t =>
        if negb (TType t =? diffTypeEdited)%string then ret Next
        else if (List.length (TObjects t) =? 0)%nat then ret Return
        else
          forRange (recurseObjDiff (GName tg) (TName t)) (TObjects t) ;;
          ret Next) (Tasks tg)) (TaskGroups plan) ;;
  ret tt.

(** ** The decision *)

(** How a call of [plan] ends: it returns its boolean, or it panics on a
    nil pointer. *)
Inductive Outcome := Returned (b : bool) | Panicked.

(** [plan]. The receiver matters only through the reply of the Nomad
    plan request, which is the argument here. *)
Definition plan (reply : PlanReply) : Logged Outcome :=
  emit Debug None "levant/plan: triggering Nomad plan" ;;
  match err reply with
  | Some e =>
      emit Error (Some e) "levant/plan: unable to run a job plan" ;;
      ret (Returned false)
  | None =>
      match resp reply with
      | None => ret Panicked
      | Some r =>
          match Diff r with
          | None => ret Panicked
          | Some diff =>
              if (JType diff =? diffTypeAdded)%string then
                emit Info None "levant/plan: job is a new addition to the cluster" ;;
                ret (Returned true)
              else if (JType diff =? diffTypeNone)%string then
                emit Error None "levant/plan: no changes detected for job" ;;
                ret (Returned false)
              else if (JType diff =? diffTypeEdited)%string then
                planDiff diff ;;
                ret (Returned true)
              else
                ret (Returned true)
          end
      end
  end.

(** The reply of a plan request that succeeded with diff [d]. *)
Definition planned (d : JobDiff) : PlanReply :=
  mkPlanReply (Some (mkJobPlanResponse (Some d))) None.

(** ** Vocabulary of the statements *)

(** The four events [plan] writes itself. *)
Definition triggerEvent : Event :=
  mkEvent Debug None "levant/plan: triggering Nomad plan".
Definition additionEvent : Event :=
  mkEvent Info None "levant/plan: job is a new addition to the cluster".
Definition noChangesEvent : Event :=
  mkEvent Error None "levant/plan: no changes detected for job".
Definition planErrorEvent (e : string) : Event :=
  mkEvent Error (Some e) "levant/plan: unable to run a job plan".

(** A top-level record that describes the outcome of the decision: one of
    the three messages [plan] logs when it settles the outcome itself. *)
Definition isOutcome (e : Event) : bool :=
  (message e =? "levant/plan: job is a new addition to the cluster")%string
  || (message e =? "levant/plan: no changes detected for job")%string
  || (message e =? "levant/plan: unable to run a job plan")%string.

Definition isInfo (e : Event) : bool :=
  match level e with Info => true | _ => false end.

(** The arguments of one call of [logDiffObj]. *)
Record Detail := mkDetail {
  dGroup : string;
  dTask : string;
  dObject : string;
  dField : string;
  dOld : string;
  dNew : string
}.

(** What [logDiffObj] writes for a detail. *)
Definition render (d : Detail) : list Event :=
  written (logDiffObj (dGroup d) (dTask d) (dObject d) (dField d) (dOld d) (dNew d)).

(** A detail record: an event written by some call of [logDiffObj]. *)
Definition isDetail (e : Event) : Prop :=
  exists d : Detail, render d = [e].

(** The detail of field [f] of the object named [oName] under [(g, t)]. *)
Definition fieldDetail (g t oName : string) (f : FieldDiff) : Detail :=
  mkDetail g t oName (FName f) (Old f) (New f).

(** The condition under which the walker reports field [f] of node [o]:
    the node has no child objects, has at least one field, is classified
    edited, and the field is classified edited. *)
Definition emitsField (o : ObjectDiff) (f : FieldDiff) : bool :=
  (List.length (Objects o) =? 0)%nat
  && (0 <? List.length (Fields o))%nat
  && (OType o =? diffTypeEdited)%string
  && (FType f =? diffTypeEdited)%string.

(** Every field below an object, in the tree's declared order: the node's
    fields in declaration order, then each child's subtree in turn. *)
Fixpoint declaredInObject (g t : string) (o : ObjectDiff) : list Detail :=
  match o with
  | mkObjectDiff _ oName fields objects =>
      map (fieldDetail g t oName) fields
      ++ flat_map (declaredInObject g t) objects
  end.

Definition declaredInTask (g : string) (t : TaskDiff) : list Detail :=
  flat_map (declaredInObject g (TName t)) (TObjects t).

(** Group-level objects before the tasks. *)
Definition declaredInGroup (tg : TaskGroupDiff) : list Detail :=
  flat_map (declaredInObject (GName tg) "") (GObjects tg)
  ++ flat_map (declaredInTask (GName tg)) (Tasks tg).

(** Every field of the job diff, in the tree's declared order. *)
Definition declaredOrder (d : JobDiff) : list Detail :=
  flat_map declaredInGroup (TaskGroups d).

(** Functional updates of single members. *)
Definition withTasks (tg : TaskGroupDiff) (ts : list TaskDiff) : TaskGroupDiff :=
  mkTaskGroupDiff (GType tg) (GName tg) (GObjects tg) ts.
Definition withFields (o : ObjectDiff) (fs : list FieldDiff) : ObjectDiff :=
  mkObjectDiff (OType o) (OName o) fs (Objects o).
Definition withObjects (o : ObjectDiff) (os : list ObjectDiff) : ObjectDiff :=
  mkObjectDiff (OType o) (OName o) (Fields o) os.

(** The loop bodies of [recurseObjDiff] and [planDiff], by name. *)
Definition fieldStep (g t oName : string) (f : FieldDiff) : Logged unit :=
  if negb (FType f =? diffTypeEdited)%string then ret tt
  else logDiffObj g t oName (FName f) (Old f) (New f).

Definition taskStep (g : string) (t : TaskDiff) : Logged Flow :=
  if negb (TType t =? diffTypeEdited)%string then ret Next
  else if (List.length (TObjects t) =? 0)%nat then ret Return
  else
    forRange (recurseObjDiff g (TName t)) (TObjects t) ;;
    ret Next.

Definition groupStep (tg : TaskGroupDiff) : Logged Flow :=
  if negb (GType tg =? diffTypeEdited)%string then ret Next
  else
    forRange (recurseObjDiff (GName tg) "") (GObjects tg) ;;
    forRangeRet (taskStep (GName tg)) (Tasks tg).

(** Sample trees: an edited [resources] leaf with an edited [cpu] field. *)
Definition cpuField : FieldDiff := mkFieldDiff "Edited" "cpu" "500" "1000".
Definition resourcesLeaf : ObjectDiff :=
  mkObjectDiff "Edited" "resources" [cpuField] [].

(** An unchanged object that wraps the edited leaf. *)
Definition unchangedWrapper : ObjectDiff :=
  mkObjectDiff "None" "Config" [] [resourcesLeaf].

(** The same wrapper with its children removed. *)
Definition unchangedBare : ObjectDiff :=
  mkObjectDiff "None" "Config" [] [].

(** An edited job whose one edited group [cache] holds the object [o]. *)
Definition groupWith (o : ObjectDiff) : JobDiff :=
  mkJobDiff "Edited" [mkTaskGroupDiff "Edited" "cache" [o] []].

Definition editedCache : JobDiff := groupWith resourcesLeaf.

(** The written events [w] follow the declared order [decl]: they are the
    rendering of details picked from [decl] without reordering. *)
Definition inOrder (w : list Event) (decl : list Detail) : Prop :=
  exists ds : list Detail, ds `sublist_of` decl /\ w = flat_map render ds.

(** The regression scenario: an edited task [web] without objects, then an
    independently edited group [api]. *)
Definition webThenApi : JobDiff :=
  mkJobDiff "Edited"
    [ mkTaskGroupDiff "Edited" "cache" [] [mkTaskDiff "Edited" "web" []];
      mkTaskGroupDiff "Edited" "api" [resourcesLeaf] [] ].

(** ** Vocabulary of the further properties *)

Definition isError (e : Event) : bool :=
  match level e with Error => true | _ => false end.

(** The nodes of an object tree, parent before children, children in
    sequence. *)
Fixpoint subtree (o : ObjectDiff) : list ObjectDiff :=
  match o with
  | mkObjectDiff _ _ _ objects => o :: flat_map subtree objects
  end.

(** The fields node [n] reports by itself under [(g, t)]. *)
Definition reportedAt (g t : string) (n : ObjectDiff) : list Detail :=
  map (fieldDetail g t (OName n)) (List.filter (emitsField n) (Fields n)).

(** The fields reported anywhere in the tree of [o]. *)
Definition reported (g t : string) (o : ObjectDiff) : list Detail :=
  flat_map (reportedAt g t) (subtree o).

(** An edited task without objects: the one that makes [planDiff] return. *)
Definition abortsTask (t : TaskDiff) : bool :=
  (TType t =? diffTypeEdited)%string && (List.length (TObjects t) =? 0)%nat.

Definition abortsGroup (tg : TaskGroupDiff) : bool :=
  (GType tg =? diffTypeEdited)%string && existsb abortsTask (Tasks tg).

Definition abortsWalk (tgs : list TaskGroupDiff) : bool :=
  existsb abortsGroup tgs.

(** What an uninterrupted walk reports for a task and for a group. *)
Definition taskReport (g : string) (t : TaskDiff) : list Detail :=
  if (TType t =? diffTypeEdited)%string
  then flat_map (reported g (TName t)) (TObjects t)
  else [].

Definition groupReport (tg : TaskGroupDiff) : list Detail :=
  if (GType tg =? diffTypeEdited)%string
  then flat_map (reported (GName tg) "") (GObjects tg)
       ++ flat_map (taskReport (GName tg)) (Tasks tg)
  else [].

Definition fullReport (d : JobDiff) : list Detail :=
  flat_map groupReport (TaskGroups d).

(** A loop step or loop [m] that returns exactly when [ab] holds and
    writes a prefix of [rep], all of it unless it returns. *)
Definition reports (m : Logged Flow) (ab : bool) (rep : list Detail) : Prop :=
  result m = (if ab then Return else Next)
  /\ exists ds : list Detail,
       written m = flat_map render ds
       /\ ds `prefix_of` rep
       /\ (ab = false -> ds = rep).

(** The two segments [logDiffObj] puts before the change. *)
Definition groupSegment (g : string) : string :=
  if (g =? "")%string then "" else "group " +:+ g +:+ " ".
Definition taskSegment (t : string) : string :=
  if (t =? "")%string then "" else "and task " +:+ t +:+ " ".

(** Two edited groups without an abort, and a tree two levels deep. *)
Definition nestedConfig : ObjectDiff :=
  mkObjectDiff "Added" "Config" [cpuField]
    [ mkObjectDiff "None" "inner" [] [resourcesLeaf];
      mkObjectDiff "Edited" "ports" [mkFieldDiff "Edited" "http" "80" "8080"] [] ].

Definition cacheGroup : TaskGroupDiff :=
  mkTaskGroupDiff "Edited" "cache" [nestedConfig]
    [mkTaskDiff "Edited" "redis" [resourcesLeaf]].

Definition apiGroup : TaskGroupDiff :=
  mkTaskGroupDiff "Edited" "api" [resourcesLeaf] [].

(** Structural induction on the object tree, with the hypothesis on all
    children. *)
Fixpoint ObjectDiff_ind (P : ObjectDiff -> Prop)
    (step : forall ty n fs os, Forall P os -> P (mkObjectDiff ty n fs os))
    (o : ObjectDiff) : P o :=
  match o with
  | mkObjectDiff ty n fs os =>
      step ty n fs os
        ((fix all (l : list ObjectDiff) : Forall P l :=
            match l with
            | [] => @List.Forall_nil _ P
            | c :: l' => @List.Forall_cons _ P c l' (ObjectDiff_ind P step c) (all l')
            end) os)
  end.

(** * Properties *)

(** ** The writer monad and the loops *)

Section Loops.

Context {A : Type}.

Lemma written_bind {B C} (m : Logged B) (k : B -> Logged C) :
  written (bind m k) = written m ++ written (k (result m)).
Proof.
  destruct m as [b w1]. unfold bind, written, result. simpl.
  destruct (k b). reflexivity.
Qed.

Lemma result_bind {B C} (m : Logged B) (k : B -> Logged C) :
  result (bind m k) = result (k (result m)).
Proof.
  destruct m as [b w1]. unfold bind, written, result. simpl.
  destruct (k b). reflexivity.
Qed.

Lemma logged_eq {B} (m1 m2 : Logged B) :
  result m1 = result m2 -> written m1 = written m2 -> m1 = m2.
Proof.
  destruct m1, m2. unfold result, written. simpl. congruence.
Qed.

Lemma forRange_written (body : A -> Logged unit) (xs : list A) :
  written (forRange body xs) = flat_map (fun x => written (body x)) xs.
Proof.
  induction xs as [|x rest IH]; [reflexivity|].
  change (forRange body (x :: rest)) with (body x ;; forRange body rest).
  rewrite written_bind, IH. reflexivity.
Qed.

Lemma forRangeRet_cons (body : A -> Logged Flow) x rest :
  forRangeRet body (x :: rest)
  = (c <- body x ;;
     match c with Next => forRangeRet body rest | Return => ret Return end).
Proof. reflexivity. Qed.

(** A loop over [xs ++ ys] runs the loop over [xs] and goes on with [ys]
    unless the function has returned. *)
Lemma forRangeRet_app_result (body : A -> Logged Flow) xs ys :
  result (forRangeRet body (xs ++ ys))
  = match result (forRangeRet body xs) with
    | Next => result (forRangeRet body ys)
    | Return => Return
    end.
Proof.
  induction xs as [|x rest IH]; [reflexivity|].
  rewrite <- app_comm_cons, !forRangeRet_cons, !result_bind.
  destruct (result (body x)); [exact IH | reflexivity].
Qed.

Lemma forRangeRet_app_written (body : A -> Logged Flow) xs ys :
  written (forRangeRet body (xs ++ ys))
  = written (forRangeRet body xs)
    ++ match result (forRangeRet body xs) with
       | Next => written (forRangeRet body ys)
       | Return => []
       end.
Proof.
  induction xs as [|x rest IH]; [reflexivity|].
  rewrite <- app_comm_cons, !forRangeRet_cons, !written_bind, !result_bind.
  destruct (result (body x)).
  - rewrite IH, app_assoc. reflexivity.
  - cbn. rewrite !app_nil_r. reflexivity.
Qed.

End Loops.

(** ** Unfolding the source functions *)

Lemma planDiff_eq (d : JobDiff) :
  planDiff d = (forRangeRet groupStep (TaskGroups d) ;; ret tt).
Proof. reflexivity. Qed.

Lemma planDiff_written (d : JobDiff) :
  written (planDiff d) = written (forRangeRet groupStep (TaskGroups d)).
Proof. rewrite planDiff_eq, written_bind. cbn. apply app_nil_r. Qed.

Lemma planDiff_unit (d : JobDiff) :
  planDiff d = (tt, written (planDiff d)).
Proof. destruct (planDiff d) as [[] w]. reflexivity. Qed.

Lemma recurseObjDiff_eq g t o :
  recurseObjDiff g t o
  = if (List.length (Objects o) =? 0)%nat && (0 <? List.length (Fields o))%nat
       && (OType o =? diffTypeEdited)%string
    then forRange (fieldStep g t (OName o)) (Fields o)
    else forRange (recurseObjDiff g t) (Objects o).
Proof. destruct o. reflexivity. Qed.

Lemma fieldStep_written g t oName f :
  written (fieldStep g t oName f)
  = if (FType f =? diffTypeEdited)%string
    then render (fieldDetail g t oName f) else [].
Proof. unfold fieldStep. destruct (FType f =? diffTypeEdited)%string; reflexivity. Qed.

(** ** Detail records *)

(** A detail record is informational and is none of the top-level outcome
    records: its text starts with [group], [and task] or [plan]. *)
Lemma detail_shape (e : Event) :
  isDetail e -> isInfo e = true /\ isOutcome e = false /\ e <> triggerEvent.
Proof.
  intros [[g t o f old new] H]. unfold render, logDiffObj in H. cbn in H.
  injection H as <-.
  destruct g as [|a g], t as [|b t]; cbn; repeat split; discriminate.
Qed.

Lemma fieldStep_details g t oName f :
  Forall isDetail (written (fieldStep g t oName f)).
Proof.
  rewrite fieldStep_written.
  destruct (FType f =? diffTypeEdited)%string; [|constructor].
  constructor; [|constructor]. exists (fieldDetail g t oName f). reflexivity.
Qed.

Lemma forRange_details {A} (body : A -> Logged unit) (xs : list A) :
  Forall (fun x => Forall isDetail (written (body x))) xs ->
  Forall isDetail (written (forRange body xs)).
Proof.
  intros H. rewrite forRange_written.
  induction H as [|x rest Hx _ IH]; cbn; [constructor|].
  apply Forall_app. split; assumption.
Qed.

Lemma recurseObjDiff_details g t o :
  Forall isDetail (written (recurseObjDiff g t o)).
Proof.
  induction o as [ty n fs os IH] using ObjectDiff_ind.
  rewrite recurseObjDiff_eq.
  destruct (_ && _).
  - apply forRange_details. apply Forall_forall. intros f _.
    apply fieldStep_details.
  - apply forRange_details. exact IH.
Qed.

Lemma objects_details g t (os : list ObjectDiff) :
  Forall isDetail (written (forRange (recurseObjDiff g t) os)).
Proof.
  apply forRange_details, Forall_forall. intros o _.
  apply recurseObjDiff_details.
Qed.

Lemma forRangeRet_details {A} (body : A -> Logged Flow) (xs : list A) :
  (forall x, Forall isDetail (written (body x))) ->
  Forall isDetail (written (forRangeRet body xs)).
Proof.
  intros H. induction xs as [|x rest IH]; [constructor|].
  rewrite forRangeRet_cons, written_bind.
  apply Forall_app. split; [apply H|].
  destruct (result (body x)); [exact IH | constructor].
Qed.

Lemma taskStep_details g t : Forall isDetail (written (taskStep g t)).
Proof.
  unfold taskStep.
  destruct (negb _); [constructor|].
  destruct (_ =? _)%nat; [constructor|].
  rewrite written_bind. cbn. rewrite app_nil_r. apply objects_details.
Qed.

Lemma groupStep_details tg : Forall isDetail (written (groupStep tg)).
Proof.
  unfold groupStep.
  destruct (negb _); [constructor|].
  rewrite written_bind. apply Forall_app. split.
  - apply objects_details.
  - apply forRangeRet_details. intros t. apply taskStep_details.
Qed.

(** The walker writes detail records only. *)
Lemma planDiff_details (d : JobDiff) : Forall isDetail (written (planDiff d)).
Proof.
  rewrite planDiff_written. apply forRangeRet_details.
  intros tg. apply groupStep_details.
Qed.

(** ** The decision, case by case *)

Lemma plan_planned (d : JobDiff) :
  plan (planned d)
  = if (JType d =? diffTypeAdded)%string then
      (Returned true, [triggerEvent; additionEvent])
    else if (JType d =? diffTypeNone)%string then
      (Returned false, [triggerEvent; noChangesEvent])
    else if (JType d =? diffTypeEdited)%string then
      (Returned true, triggerEvent :: written (planDiff d))
    else
      (Returned true, [triggerEvent]).
Proof.
  unfold plan, planned. cbn [err resp Diff].
  destruct (JType d =? diffTypeAdded)%string; [reflexivity|].
  destruct (JType d =? diffTypeNone)%string; [reflexivity|].
  destruct (JType d =? diffTypeEdited)%string; [|reflexivity].
  rewrite (planDiff_unit d). cbn. rewrite app_nil_r. reflexivity.
Qed.

Lemma plan_edited (tgs : list TaskGroupDiff) :
  plan (planned (mkJobDiff diffTypeEdited tgs))
  = (Returned true,
     triggerEvent :: written (planDiff (mkJobDiff diffTypeEdited tgs))).
Proof. rewrite plan_planned. reflexivity. Qed.

(** C2. With the diff in hand, [plan] returns, and it returns false exactly
    when the top-level classification is none; for an edited diff it
    returns true whatever the task groups are, hence however many detail
    records the walk wrote. *)
Theorem plan_false_iff_none (d : JobDiff) :
  (exists b, result (plan (planned d)) = Returned b
             /\ (b = false <-> JType d = diffTypeNone))
  /\ (forall tgs,
        result (plan (planned (mkJobDiff diffTypeEdited tgs))) = Returned true).
Proof.
  split; [|intros tgs; rewrite plan_edited; reflexivity].
  rewrite plan_planned.
  destruct (String.eqb_spec (JType d) diffTypeAdded) as [Ha|Ha].
  - exists true. split; [reflexivity|]. rewrite Ha. split; discriminate.
  - destruct (String.eqb_spec (JType d) diffTypeNone) as [Hn|Hn].
    + exists false. split; [reflexivity|]. split; auto.
    + exists true. split.
      * destruct (JType d =? diffTypeEdited)%string; reflexivity.
      * split; [discriminate | intros; contradiction].
Qed.

(** C6. A top-level classification that is none of added, edited and none
    makes [plan] return true with no record about the classification: the
    log holds the debug trigger line alone. *)
Theorem plan_unrecognized (d : JobDiff) :
  JType d <> diffTypeAdded ->
  JType d <> diffTypeEdited ->
  JType d <> diffTypeNone ->
  plan (planned d) = (Returned true, [triggerEvent])
  /\ List.filter isOutcome (written (plan (planned d))) = [].
Proof.
  intros Ha He Hn.
  apply String.eqb_neq in Ha, He, Hn.
  rewrite plan_planned, Ha, He, Hn. split; reflexivity.
Qed.

Lemma plan_unrecognized_witness :
  plan (planned (mkJobDiff "Deleted" [mkTaskGroupDiff "Edited" "cache" [resourcesLeaf] []]))
  = (Returned true, [triggerEvent]).
Proof.
  apply (plan_unrecognized
           (mkJobDiff "Deleted" [mkTaskGroupDiff "Edited" "cache" [resourcesLeaf] []]));
    discriminate.
Defined.

(** C7. For a diff classified added, whatever it contains, [plan] returns
    true; after the debug trigger line the log holds exactly one
    informational record, the one saying the job is a new addition to the
    cluster, and no detail record. *)
Theorem plan_added (tgs : list TaskGroupDiff) :
  plan (planned (mkJobDiff diffTypeAdded tgs))
  = (Returned true,
     [triggerEvent;
      mkEvent Info None "levant/plan: job is a new addition to the cluster"])
  /\ List.filter isInfo (written (plan (planned (mkJobDiff diffTypeAdded tgs))))
     = [additionEvent]
  /\ Forall (fun e => ~ isDetail e)
       (written (plan (planned (mkJobDiff diffTypeAdded tgs)))).
Proof.
  rewrite plan_planned. cbn. repeat split.
  repeat constructor; intros H; apply detail_shape in H;
    destruct H as (Hi & Ho & Ht); discriminate.
Qed.

(** C10. When the plan request returns an error, whatever response comes
    with it, [plan] writes the debug trigger line and one error record
    carrying the error, and returns false; no detail record is written. *)
Theorem plan_request_error (r : option JobPlanResponse) (e : string) :
  plan (mkPlanReply r (Some e))
  = (Returned false,
     [triggerEvent;
      mkEvent Error (Some e) "levant/plan: unable to run a job plan"])
  /\ Forall (fun ev => ~ isDetail ev)
       (written (plan (mkPlanReply r (Some e)))).
Proof.
  split; [reflexivity|].
  cbn. repeat constructor; intros H; apply detail_shape in H;
    destruct H as (Hi & Ho & Ht); discriminate.
Qed.

(** ** Records per invocation *)

Lemma details_no_outcome (l : list Event) :
  Forall isDetail l -> List.filter isOutcome l = [].
Proof.
  induction 1 as [|e l He _ IH]; [reflexivity|].
  cbn. apply detail_shape in He. destruct He as (_ & -> & _). exact IH.
Qed.

(** C5, as stated, fails on the edited path: the log of an edited diff
    with one changed field is the debug trigger line and the detail
    record, with no record describing the top-level outcome. *)
Lemma plan_edited_no_outcome_record :
  written (plan (planned editedCache))
  = [mkEvent Debug None "levant/plan: triggering Nomad plan";
     mkEvent Info None
       "levant/plan: group cache plan indicates change of resources:cpu from 500 to 1000"]
  /\ List.length (List.filter isOutcome (written (plan (planned editedCache)))) <> 1.
Proof. split; [reflexivity | cbn; discriminate]. Qed.

(** C5, amended. With the diff in hand, the log of [plan] is the debug
    trigger line followed by: the one informational outcome record when
    the classification is added; the one error outcome record when it is
    none; the walker's detail records and nothing else when it is edited;
    nothing otherwise. So there is exactly one top-level outcome record
    for added and for none and there is none for edited and for an
    unrecognized classification; the walker's records are all detail
    records. *)
Theorem plan_records (d : JobDiff) :
  written (plan (planned d))
  = triggerEvent ::
      (if (JType d =? diffTypeAdded)%string then [additionEvent]
       else if (JType d =? diffTypeNone)%string then [noChangesEvent]
       else if (JType d =? diffTypeEdited)%string then written (planDiff d)
       else [])
  /\ List.filter isOutcome (written (plan (planned d)))
     = (if (JType d =? diffTypeAdded)%string then [additionEvent]
        else if (JType d =? diffTypeNone)%string then [noChangesEvent]
        else [])
  /\ Forall isDetail (written (planDiff d)).
Proof.
  rewrite plan_planned.
  destruct (JType d =? diffTypeAdded)%string;
    [repeat split; apply planDiff_details|].
  destruct (JType d =? diffTypeNone)%string;
    [repeat split; apply planDiff_details|].
  destruct (JType d =? diffTypeEdited)%string;
    [|repeat split; apply planDiff_details].
  repeat split; [|apply planDiff_details].
  unfold written at 1. cbn [snd List.filter isOutcome message triggerEvent].
  cbn. apply details_no_outcome, planDiff_details.
Qed.

(** ** The abort on an edited task without objects *)

Lemma taskStep_abort g t :
  TType t = diffTypeEdited -> TObjects t = [] -> taskStep g t = (Return, []).
Proof. intros Ht Ho. unfold taskStep. rewrite Ht, Ho. reflexivity. Qed.

Lemma tasks_abort g tpre t tpost :
  TType t = diffTypeEdited -> TObjects t = [] ->
  result (forRangeRet (taskStep g) (tpre ++ t :: tpost)) = Return
  /\ written (forRangeRet (taskStep g) (tpre ++ t :: tpost))
     = written (forRangeRet (taskStep g) tpre).
Proof.
  intros Ht Ho.
  rewrite forRangeRet_app_result, forRangeRet_app_written.
  rewrite forRangeRet_cons, (taskStep_abort g t Ht Ho). cbn.
  destruct (result (forRangeRet (taskStep g) tpre));
    split; try reflexivity; apply app_nil_r.
Qed.

Lemma groupStep_abort tg tpre t tpost :
  GType tg = diffTypeEdited -> Tasks tg = tpre ++ t :: tpost ->
  TType t = diffTypeEdited -> TObjects t = [] ->
  result (groupStep tg) = Return
  /\ written (groupStep tg) = written (groupStep (withTasks tg tpre)).
Proof.
  intros Hg Hts Ht Ho. unfold groupStep, withTasks. cbn [GType GName GObjects Tasks].
  rewrite Hg, Hts. cbn [negb String.eqb].
  change (negb (diffTypeEdited =? diffTypeEdited)%string) with false. cbn iota.
  rewrite result_bind, !written_bind.
  destruct (tasks_abort (GName tg) tpre t tpost Ht Ho) as [-> ->].
  split; reflexivity.
Qed.

Lemma groups_abort pre tg tg' post :
  result (groupStep tg) = Return ->
  written (groupStep tg) = written (groupStep tg') ->
  written (forRangeRet groupStep (pre ++ tg :: post))
  = written (forRangeRet groupStep (pre ++ [tg'])).
Proof.
  intros Hr Hw. rewrite !forRangeRet_app_written. f_equal.
  destruct (result (forRangeRet groupStep pre)); [|reflexivity].
  rewrite !forRangeRet_cons, !written_bind, Hr, Hw. cbn.
  destruct (result (groupStep tg')); reflexivity.
Qed.

(** C1. Let an edited job diff hold an edited group [tg] one of whose
    tasks, [t], is edited and has no objects. Then the walker writes
    exactly what it writes on the diff cut off right before [t] (the
    later tasks of [tg] and all later groups removed), and so does
    [plan]: nothing that comes after [t] contributes a record. *)
Theorem planDiff_abort_on_empty_task
    (pre post : list TaskGroupDiff) (tg : TaskGroupDiff)
    (tpre tpost : list TaskDiff) (t : TaskDiff) :
  GType tg = diffTypeEdited ->
  Tasks tg = tpre ++ t :: tpost ->
  TType t = diffTypeEdited ->
  TObjects t = [] ->
  planDiff (mkJobDiff diffTypeEdited (pre ++ tg :: post))
  = planDiff (mkJobDiff diffTypeEdited (pre ++ [withTasks tg tpre]))
  /\ plan (planned (mkJobDiff diffTypeEdited (pre ++ tg :: post)))
     = plan (planned (mkJobDiff diffTypeEdited (pre ++ [withTasks tg tpre]))).
Proof.
  intros Hg Hts Ht Ho.
  destruct (groupStep_abort tg tpre t tpost Hg Hts Ht Ho) as [Hr Hw].
  assert (written (planDiff (mkJobDiff diffTypeEdited (pre ++ tg :: post)))
          = written (planDiff (mkJobDiff diffTypeEdited (pre ++ [withTasks tg tpre]))))
    as Heq.
  { rewrite !planDiff_written. cbn [TaskGroups].
    apply groups_abort; assumption. }
  split.
  - rewrite planDiff_unit, Heq. symmetry. apply planDiff_unit.
  - rewrite !plan_edited, Heq. reflexivity.
Qed.

(** The regression scenario: the edited task [web] of group [cache] has no
    objects, so the change in the later group [api] is not reported. *)
Lemma planDiff_abort_on_empty_task_witness :
  planDiff webThenApi
  = planDiff (mkJobDiff "Edited" [mkTaskGroupDiff "Edited" "cache" [] []])
  /\ plan (planned webThenApi)
     = plan (planned (mkJobDiff "Edited" [mkTaskGroupDiff "Edited" "cache" [] []])).
Proof.
  exact (planDiff_abort_on_empty_task
           [] [mkTaskGroupDiff "Edited" "api" [resourcesLeaf] []]
           (mkTaskGroupDiff "Edited" "cache" [] [mkTaskDiff "Edited" "web" []])
           [] [] (mkTaskDiff "Edited" "web" [])
           eq_refl eq_refl eq_refl eq_refl).
Defined.

Example webThenApi_log :
  plan (planned webThenApi) = (Returned true, [triggerEvent]).
Proof. reflexivity. Qed.

Example api_alone_log :
  written (plan (planned
    (mkJobDiff "Edited" [mkTaskGroupDiff "Edited" "api" [resourcesLeaf] []])))
  = [triggerEvent;
     mkEvent Info None
       "levant/plan: group api plan indicates change of resources:cpu from 500 to 1000"].
Proof. reflexivity. Qed.

(** ** Which fields an object node reports *)

Lemma fields_written g t oName (fs : list FieldDiff) :
  written (forRange (fieldStep g t oName) fs)
  = flat_map render
      (map (fieldDetail g t oName)
           (List.filter (fun f => (FType f =? diffTypeEdited)%string) fs)).
Proof.
  rewrite forRange_written.
  induction fs as [|f fs IH]; [reflexivity|].
  cbn [flat_map List.filter]. rewrite fieldStep_written, IH.
  destruct (FType f =? diffTypeEdited)%string; reflexivity.
Qed.

Lemma filter_none {A} (p : A -> bool) (l : list A) :
  (forall x, p x = false) -> List.filter p l = [].
Proof.
  intros H. induction l as [|x l IH]; [reflexivity|].
  cbn. rewrite H. exact IH.
Qed.

Lemma length_zero_nil {A} (l : list A) :
  (List.length l =? 0)%nat = true -> l = [].
Proof. destruct l; [reflexivity | discriminate]. Qed.

(** What a node writes: its reported fields, then what its children
    write. *)
Lemma recurseObjDiff_written (g t : string) (o : ObjectDiff) :
  written (recurseObjDiff g t o)
  = flat_map render
      (map (fieldDetail g t (OName o)) (List.filter (emitsField o) (Fields o)))
    ++ flat_map (fun c => written (recurseObjDiff g t c)) (Objects o).
Proof.
  rewrite recurseObjDiff_eq. unfold emitsField.
  destruct ((List.length (Objects o) =? 0)%nat && (0 <? List.length (Fields o))%nat
            && (OType o =? diffTypeEdited)%string) eqn:E.
  - apply andb_prop in E as [E _]. apply andb_prop in E as [E _].
    apply length_zero_nil in E. rewrite E. cbn [flat_map andb].
    rewrite app_nil_r. apply fields_written.
  - rewrite filter_none by reflexivity. apply forRange_written.
Qed.

(** C3. What [recurseObjDiff] writes at a node is one detail record for
    each field that satisfies [emitsField] (no child objects, at least one
    field, node edited, field edited), in order, followed by what the
    children write. Hence an edited node without children writes the
    records of its edited fields and passes over the other fields; a node
    with child objects writes what its children write, whatever its
    fields are; and a childless node that is not edited writes nothing. *)
Theorem recurseObjDiff_fields (g t : string) (o : ObjectDiff) :
  written (recurseObjDiff g t o)
  = flat_map render
      (map (fieldDetail g t (OName o)) (List.filter (emitsField o) (Fields o)))
    ++ flat_map (fun c => written (recurseObjDiff g t c)) (Objects o)
  /\ (Objects o = [] -> OType o = diffTypeEdited ->
      written (recurseObjDiff g t o)
      = flat_map render
          (map (fieldDetail g t (OName o))
               (List.filter (fun f => (FType f =? diffTypeEdited)%string) (Fields o))))
  /\ (Objects o <> [] ->
      forall fs,
        recurseObjDiff g t (withFields o fs)
        = forRange (recurseObjDiff g t) (Objects o))
  /\ (Objects o = [] -> OType o <> diffTypeEdited ->
      written (recurseObjDiff g t o) = []).
Proof.
  repeat split.
  - apply recurseObjDiff_written.
  - intros Hnil Hty. rewrite recurseObjDiff_eq, Hnil, Hty.
    destruct (Fields o) as [|f fs]; [reflexivity|]. apply fields_written.
  - intros Hne fs. rewrite recurseObjDiff_eq. cbn [withFields Objects Fields OType].
    destruct (Objects o) as [|c cs]; [contradiction | reflexivity].
  - intros Hnil Hty. rewrite recurseObjDiff_eq, Hnil.
    apply String.eqb_neq in Hty. rewrite Hty, andb_false_r. reflexivity.
Qed.

Lemma recurseObjDiff_fields_witness :
  written (recurseObjDiff "cache" "redis" resourcesLeaf)
  = [mkEvent Info None
       "levant/plan: group cache and task redis plan indicates change of resources:cpu from 500 to 1000"]
  /\ recurseObjDiff "cache" "" (withFields unchangedWrapper [cpuField])
     = forRange (recurseObjDiff "cache" "") [resourcesLeaf]
  /\ written (recurseObjDiff "cache" "" unchangedBare) = [].
Proof.
  destruct (recurseObjDiff_fields "cache" "redis" resourcesLeaf) as (_ & Hleaf & _).
  destruct (recurseObjDiff_fields "cache" "" unchangedWrapper) as (_ & _ & Hinner & _).
  destruct (recurseObjDiff_fields "cache" "" unchangedBare) as (_ & _ & _ & Hbare).
  split; [|split].
  - apply Hleaf; reflexivity.
  - apply Hinner. discriminate.
  - apply Hbare; [reflexivity | discriminate].
Defined.

(** ** Nodes that are not edited *)

(** C4, as stated, fails for object nodes: the walker goes through an
    object that is not edited and reports the edited field of its child;
    without the child nothing is reported. *)
Lemma unchanged_object_is_descended :
  (OType unchangedWrapper =? diffTypeEdited)%string = false
  /\ Objects unchangedWrapper = [resourcesLeaf]
  /\ written (planDiff (groupWith unchangedWrapper))
     = [mkEvent Info None
          "levant/plan: group cache plan indicates change of resources:cpu from 500 to 1000"]
  /\ written (planDiff (groupWith unchangedBare)) = [].
Proof. repeat split. Qed.

Lemma groupStep_skip tg :
  GType tg <> diffTypeEdited -> groupStep tg = (Next, []).
Proof.
  intros H. apply String.eqb_neq in H. unfold groupStep. rewrite H. reflexivity.
Qed.

Lemma taskStep_skip g t :
  TType t <> diffTypeEdited -> taskStep g t = (Next, []).
Proof.
  intros H. apply String.eqb_neq in H. unfold taskStep. rewrite H. reflexivity.
Qed.

(** A loop step that falls through without writing can be dropped. *)
Lemma forRangeRet_drop {A} (body : A -> Logged Flow) pre x post :
  body x = (Next, []) ->
  forRangeRet body (pre ++ x :: post) = forRangeRet body (pre ++ post).
Proof.
  intros H. apply logged_eq.
  - rewrite !forRangeRet_app_result, forRangeRet_cons, result_bind, H.
    reflexivity.
  - rewrite !forRangeRet_app_written, forRangeRet_cons, written_bind, H.
    reflexivity.
Qed.

Lemma forRangeRet_replace {A} (body : A -> Logged Flow) pre x y post :
  body x = body y ->
  forRangeRet body (pre ++ x :: post) = forRangeRet body (pre ++ y :: post).
Proof.
  intros H. apply logged_eq.
  - rewrite !forRangeRet_app_result, !forRangeRet_cons, !result_bind, H.
    reflexivity.
  - rewrite !forRangeRet_app_written, !forRangeRet_cons, !written_bind, H.
    reflexivity.
Qed.

(** C4, amended. A job diff, a task group or a task that is not edited is
    not entered: [plan] on a job diff that is not edited does not depend
    on its task groups, and the walker writes the same with a non-edited
    group, or a non-edited task, removed. An object node that is not
    edited is entered: it writes exactly what its children write (only
    its own fields are left out). *)
Theorem non_edited_nodes :
  (forall ty tgs, ty <> diffTypeEdited ->
     plan (planned (mkJobDiff ty tgs)) = plan (planned (mkJobDiff ty [])))
  /\ (forall ty pre tg post, GType tg <> diffTypeEdited ->
        planDiff (mkJobDiff ty (pre ++ tg :: post))
        = planDiff (mkJobDiff ty (pre ++ post)))
  /\ (forall ty pre tg post tpre t tpost,
        TType t <> diffTypeEdited -> Tasks tg = tpre ++ t :: tpost ->
        planDiff (mkJobDiff ty (pre ++ tg :: post))
        = planDiff (mkJobDiff ty (pre ++ withTasks tg (tpre ++ tpost) :: post)))
  /\ (forall g t o, OType o <> diffTypeEdited ->
        recurseObjDiff g t o = forRange (recurseObjDiff g t) (Objects o)).
Proof.
  split; [|split; [|split]].
  - intros ty tgs H. apply String.eqb_neq in H.
    rewrite !plan_planned. cbn [JType]. rewrite H. reflexivity.
  - intros ty pre tg post H. rewrite !planDiff_eq. cbn [TaskGroups].
    rewrite (forRangeRet_drop groupStep pre tg post (groupStep_skip tg H)).
    reflexivity.
  - intros ty pre tg post tpre t tpost Ht Hts.
    rewrite !planDiff_eq. cbn [TaskGroups].
    rewrite (forRangeRet_replace groupStep pre tg (withTasks tg (tpre ++ tpost)) post);
      [reflexivity|].
    unfold groupStep, withTasks. cbn [GType GName GObjects Tasks]. rewrite Hts.
    rewrite (forRangeRet_drop (taskStep (GName tg)) tpre t tpost
               (taskStep_skip (GName tg) t Ht)).
    reflexivity.
  - intros g t o H. apply String.eqb_neq in H.
    rewrite recurseObjDiff_eq, H, andb_false_r. reflexivity.
Qed.

Lemma non_edited_nodes_witness :
  plan (planned (mkJobDiff "Added" (TaskGroups editedCache)))
  = plan (planned (mkJobDiff "Added" []))
  /\ planDiff (mkJobDiff "Edited"
       ([] ++ mkTaskGroupDiff "None" "cache" [resourcesLeaf] [] :: []))
     = planDiff (mkJobDiff "Edited" ([] ++ []))
  /\ recurseObjDiff "cache" "" unchangedWrapper
     = forRange (recurseObjDiff "cache" "") [resourcesLeaf].
Proof.
  destruct non_edited_nodes as (Hj & Hg & _ & Ho).
  split; [|split].
  - apply Hj. discriminate.
  - apply Hg. discriminate.
  - apply (Ho "cache" "" unchangedWrapper). discriminate.
Defined.

(** ** Order of the detail records *)

Lemma inOrder_nil decl : inOrder [] decl.
Proof. exists []. split; [apply sublist_nil_l | reflexivity]. Qed.

Lemma inOrder_app w1 w2 d1 d2 :
  inOrder w1 d1 -> inOrder w2 d2 -> inOrder (w1 ++ w2) (d1 ++ d2).
Proof.
  intros (ds1 & Hs1 & ->) (ds2 & Hs2 & ->). exists (ds1 ++ ds2). split.
  - apply sublist_app; assumption.
  - symmetry. apply flat_map_app.
Qed.

Lemma sublist_map_filter {A B} (f : A -> B) (p : A -> bool) (l : list A) :
  map f (List.filter p l) `sublist_of` map f l.
Proof.
  induction l as [|x l IH]; cbn; [constructor|].
  destruct (p x); cbn; constructor; exact IH.
Qed.

Lemma forRange_inOrder {A} (body : A -> Logged unit) (decl : A -> list Detail) xs :
  Forall (fun x => inOrder (written (body x)) (decl x)) xs ->
  inOrder (written (forRange body xs)) (flat_map decl xs).
Proof.
  intros H. rewrite forRange_written.
  induction H as [|x rest Hx _ IH]; cbn; [apply inOrder_nil|].
  apply inOrder_app; assumption.
Qed.

Lemma recurseObjDiff_inOrder g t o :
  inOrder (written (recurseObjDiff g t o)) (declaredInObject g t o).
Proof.
  induction o as [ty n fs os IH] using ObjectDiff_ind.
  rewrite recurseObjDiff_written. cbn [declaredInObject OName Fields Objects].
  apply inOrder_app.
  - eexists. split; [apply sublist_map_filter | reflexivity].
  - rewrite <- forRange_written. apply forRange_inOrder. exact IH.
Qed.

Lemma objects_inOrder g t (os : list ObjectDiff) :
  inOrder (written (forRange (recurseObjDiff g t) os))
          (flat_map (declaredInObject g t) os).
Proof.
  apply forRange_inOrder, Forall_forall. intros o _.
  apply recurseObjDiff_inOrder.
Qed.

Lemma forRangeRet_inOrder {A} (body : A -> Logged Flow) (decl : A -> list Detail) xs :
  (forall x, inOrder (written (body x)) (decl x)) ->
  inOrder (written (forRangeRet body xs)) (flat_map decl xs).
Proof.
  intros H. induction xs as [|x rest IH]; [apply inOrder_nil|].
  rewrite forRangeRet_cons, written_bind. cbn [flat_map].
  apply inOrder_app; [apply H|].
  destruct (result (body x)); [exact IH | apply inOrder_nil].
Qed.

Lemma taskStep_inOrder g t :
  inOrder (written (taskStep g t)) (declaredInTask g t).
Proof.
  unfold taskStep.
  destruct (negb _); [apply inOrder_nil|].
  destruct (_ =? _)%nat; [apply inOrder_nil|].
  rewrite written_bind. cbn. rewrite app_nil_r. apply objects_inOrder.
Qed.

Lemma groupStep_inOrder tg :
  inOrder (written (groupStep tg)) (declaredInGroup tg).
Proof.
  unfold groupStep.
  destruct (negb _); [apply inOrder_nil|].
  rewrite written_bind. apply inOrder_app.
  - apply objects_inOrder.
  - apply forRangeRet_inOrder. intros t. apply taskStep_inOrder.
Qed.

(** C8. The detail records the walker writes are the rendering of a
    subsequence of [declaredOrder]: the fields of the tree listed group by
    group, in each group the group-level objects before the tasks, the
    tasks in sequence, each task's objects in sequence, each object's
    subtree before its next sibling, fields in declaration order. *)
Theorem planDiff_declared_order (d : JobDiff) :
  exists ds : list Detail,
    ds `sublist_of` declaredOrder d
    /\ written (planDiff d) = flat_map render ds
    /\ List.length (written (planDiff d)) = List.length ds.
Proof.
  assert (inOrder (written (planDiff d)) (declaredOrder d)) as (ds & Hs & Hw).
  { rewrite planDiff_written. apply forRangeRet_inOrder.
    intros tg. apply groupStep_inOrder. }
  exists ds. repeat split; [exact Hs | exact Hw |].
  rewrite Hw. clear. induction ds as [|x ds IH]; [reflexivity|].
  cbn. rewrite IH. reflexivity.
Qed.

(** ** The text of a detail record *)

Lemma string_app_assoc (a b c : string) :
  (a +:+ b) +:+ c = a +:+ (b +:+ c).
Proof.
  induction a as [|x a IH]; [reflexivity|].
  change (String x ((a +:+ b) +:+ c) = String x (a +:+ (b +:+ c))).
  f_equal. exact IH.
Qed.

(** C9, as stated, fails: the message of a detail record is not the bare
    line, it carries the prefix [levant/plan: ]. *)
Lemma detail_message_has_prefix :
  written (logDiffObj "cache" "redis" "resources" "cpu" "500" "1000")
  = [mkEvent Info None
       "levant/plan: group cache and task redis plan indicates change of resources:cpu from 500 to 1000"]
  /\ List.map
       (fun e => (message e =?
          "group cache and task redis plan indicates change of resources:cpu from 500 to 1000")%string)
       (written (logDiffObj "cache" "redis" "resources" "cpu" "500" "1000"))
     = [false].
Proof. split; reflexivity. Qed.

(** C9, amended. [logDiffObj] writes one informational record whose
    message is [levant/plan: ] followed by: the group segment, the task
    segment and the change when both names are non-empty; the group
    segment and the change when only the group name is non-empty; the
    change alone when both are empty. The group segment precedes the task
    segment. *)
Theorem logDiffObj_message (g t objName fName fOld fNew : string) :
  (g <> "" -> t <> "" ->
   logDiffObj g t objName fName fOld fNew
   = emit Info None
       ("levant/plan: " +:+ "group " +:+ g +:+ " and task " +:+ t
        +:+ " plan indicates change of " +:+ objName +:+ ":" +:+ fName
        +:+ " from " +:+ fOld +:+ " to " +:+ fNew))
  /\ (g <> "" ->
      logDiffObj g "" objName fName fOld fNew
      = emit Info None
          ("levant/plan: " +:+ "group " +:+ g
           +:+ " plan indicates change of " +:+ objName +:+ ":" +:+ fName
           +:+ " from " +:+ fOld +:+ " to " +:+ fNew))
  /\ logDiffObj "" "" objName fName fOld fNew
     = emit Info None
         ("levant/plan: "
          +:+ "plan indicates change of " +:+ objName +:+ ":" +:+ fName
          +:+ " from " +:+ fOld +:+ " to " +:+ fNew).
Proof.
  split; [|split].
  - intros Hg Ht. apply String.eqb_neq in Hg, Ht.
    unfold logDiffObj. rewrite Hg, Ht, !string_app_assoc. reflexivity.
  - intros Hg. apply String.eqb_neq in Hg.
    unfold logDiffObj. rewrite Hg.
    change ("" =? "")%string with true. cbv iota zeta.
    rewrite !string_app_assoc. reflexivity.
  - reflexivity.
Qed.

Lemma logDiffObj_message_witness :
  logDiffObj "cache" "redis" "resources" "cpu" "500" "1000"
  = emit Info None
      "levant/plan: group cache and task redis plan indicates change of resources:cpu from 500 to 1000"
  /\ logDiffObj "cache" "" "resources" "cpu" "500" "1000"
     = emit Info None
         "levant/plan: group cache plan indicates change of resources:cpu from 500 to 1000".
Proof.
  split.
  - apply (proj1 (logDiffObj_message "cache" "redis" "resources" "cpu" "500" "1000"));
      discriminate.
  - apply (proj1 (proj2 (logDiffObj_message "cache" "" "resources" "cpu" "500" "1000")));
      discriminate.
Defined.

(** * Further properties *)

(** ** What an object tree reports *)

Lemma flat_map_flat_map {A B C} (f : B -> list C) (g : A -> list B) (l : list A) :
  flat_map f (flat_map g l) = flat_map (fun x => flat_map f (g x)) l.
Proof.
  induction l as [|x l IH]; [reflexivity|].
  cbn. rewrite flat_map_app, IH. reflexivity.
Qed.

Lemma flat_map_Forall_ext {A B} (f g : A -> list B) (l : list A) :
  Forall (fun x => f x = g x) l -> flat_map f l = flat_map g l.
Proof.
  induction 1 as [|x l Hx _ IH]; [reflexivity|].
  cbn. rewrite Hx, IH. reflexivity.
Qed.

Lemma subtree_reported (g t : string) (o : ObjectDiff) :
  written (recurseObjDiff g t o) = flat_map render (reported g t o).
Proof.
  induction o as [ty n fs os IH] using ObjectDiff_ind.
  rewrite recurseObjDiff_written. unfold reported.
  cbn [subtree flat_map Objects]. rewrite flat_map_app. f_equal.
  rewrite !flat_map_flat_map. apply flat_map_Forall_ext.
  eapply Forall_impl; [exact IH|]. intros c Hc. cbn beta in Hc.
  rewrite Hc. unfold reported. apply flat_map_flat_map.
Qed.

Lemma objects_reported g t (os : list ObjectDiff) :
  written (forRange (recurseObjDiff g t) os)
  = flat_map render (flat_map (reported g t) os).
Proof.
  rewrite forRange_written, flat_map_flat_map.
  apply flat_map_Forall_ext, Forall_forall. intros o _.
  apply subtree_reported.
Qed.

(** X1. [recurseObjDiff] writes, in pre-order, one record for every edited
    field of every edited childless node found anywhere below (and
    including) the node it is called on, whatever the classification of
    the nodes in between; so does a loop over a list of objects. *)
Theorem recurseObjDiff_reported (g t : string) (o : ObjectDiff) (os : list ObjectDiff) :
  written (recurseObjDiff g t o)
  = flat_map render
      (flat_map (fun n => map (fieldDetail g t (OName n))
                            (List.filter (emitsField n) (Fields n)))
                (subtree o))
  /\ written (forRange (recurseObjDiff g t) os)
     = flat_map render (flat_map (reported g t) os).
Proof. split; [apply subtree_reported | apply objects_reported]. Qed.

Example nestedConfig_reported :
  reported "cache" "" nestedConfig
  = [mkDetail "cache" "" "resources" "cpu" "500" "1000";
     mkDetail "cache" "" "ports" "http" "80" "8080"].
Proof. reflexivity. Qed.

(** ** What the walker reports, with and without the abort *)

Lemma flat_map_render_app (ds1 ds2 : list Detail) :
  flat_map render ds1 ++ flat_map render ds2 = flat_map render (ds1 ++ ds2).
Proof. symmetry. apply flat_map_app. Qed.

Lemma taskStep_reports g t :
  reports (taskStep g t) (abortsTask t) (taskReport g t).
Proof.
  unfold reports, taskStep, abortsTask, taskReport.
  destruct (TType t =? diffTypeEdited)%string; cbn [negb andb].
  - destruct (List.length (TObjects t) =? 0)%nat.
    + split; [reflexivity|]. exists []. repeat split.
      * apply prefix_nil.
      * discriminate.
    + rewrite result_bind, written_bind. cbn [ret result written fst snd].
      rewrite app_nil_r, objects_reported. split; [reflexivity|].
      eexists. repeat split; reflexivity.
  - split; [reflexivity|]. exists []. repeat split; reflexivity.
Qed.

Lemma forRangeRet_reports {A} (body : A -> Logged Flow)
    (ab : A -> bool) (rep : A -> list Detail) (xs : list A) :
  (forall x, reports (body x) (ab x) (rep x)) ->
  reports (forRangeRet body xs) (existsb ab xs) (flat_map rep xs).
Proof.
  intros H. induction xs as [|x rest IH].
  - split; [reflexivity|]. exists []. repeat split; reflexivity.
  - destruct (H x) as (Hr & ds1 & Hw1 & Hp1 & Hf1).
    destruct IH as (Hr' & ds2 & Hw2 & Hp2 & Hf2).
    unfold reports. rewrite forRangeRet_cons, result_bind, written_bind, Hr, Hw1.
    cbn [existsb flat_map]. destruct (ab x); cbn [orb].
    + split; [reflexivity|]. exists ds1. repeat split.
      * cbn. apply app_nil_r.
      * apply prefix_app_r, Hp1.
      * discriminate.
    + rewrite Hr', Hw2, flat_map_render_app, (Hf1 eq_refl).
      split; [reflexivity|]. exists (rep x ++ ds2). repeat split.
      * apply prefix_app, Hp2.
      * intros E. rewrite (Hf2 E). reflexivity.
Qed.

Lemma groupStep_reports tg :
  reports (groupStep tg) (abortsGroup tg) (groupReport tg).
Proof.
  unfold groupStep, abortsGroup, groupReport.
  destruct (GType tg =? diffTypeEdited)%string; cbn [negb andb].
  - destruct (forRangeRet_reports (taskStep (GName tg)) abortsTask
                (taskReport (GName tg)) (Tasks tg) (taskStep_reports (GName tg)))
      as (Hr & ds & Hw & Hp & Hf).
    unfold reports.
    rewrite result_bind, written_bind, Hr, Hw, objects_reported, flat_map_render_app.
    split; [reflexivity|]. eexists. repeat split.
    + apply prefix_app, Hp.
    + intros E. rewrite (Hf E). reflexivity.
  - split; [reflexivity|]. exists []. repeat split; reflexivity.
Qed.

Lemma walk_reports (tgs : list TaskGroupDiff) :
  reports (forRangeRet groupStep tgs) (abortsWalk tgs) (flat_map groupReport tgs).
Proof. apply forRangeRet_reports, groupStep_reports. Qed.

(** X2. When no edited task of an edited group is without objects, the
    walker reports every edited group in full: its log is the rendering of
    [fullReport], that is, for each edited group in sequence, the reported
    fields of its group-level objects and then of the objects of each of
    its edited tasks. *)
Theorem planDiff_full_report (d : JobDiff) :
  abortsWalk (TaskGroups d) = false ->
  written (planDiff d) = flat_map render (fullReport d).
Proof.
  intros E. rewrite planDiff_written.
  destruct (walk_reports (TaskGroups d)) as (_ & ds & Hw & _ & Hf).
  rewrite Hw, (Hf E). reflexivity.
Qed.

Lemma planDiff_full_report_witness :
  written (planDiff (mkJobDiff "Edited" [cacheGroup; apiGroup]))
  = flat_map render
      [mkDetail "cache" "" "resources" "cpu" "500" "1000";
       mkDetail "cache" "" "ports" "http" "80" "8080";
       mkDetail "cache" "redis" "resources" "cpu" "500" "1000";
       mkDetail "api" "" "resources" "cpu" "500" "1000"].
Proof.
  exact (planDiff_full_report (mkJobDiff "Edited" [cacheGroup; apiGroup]) eq_refl).
Defined.

(** X3. Whatever the diff, the abort only cuts the report short: the
    walker's log is the rendering of a prefix of [fullReport], so it never
    holds a record that an uninterrupted walk would not write, and never
    skips a record that comes before one it writes. *)
Theorem planDiff_prefix_of_full_report (d : JobDiff) :
  exists ds : list Detail,
    ds `prefix_of` fullReport d
    /\ written (planDiff d) = flat_map render ds.
Proof.
  rewrite planDiff_written.
  destruct (walk_reports (TaskGroups d)) as (_ & ds & Hw & Hp & _).
  exists ds. split; assumption.
Qed.

(** X4. Task groups appended to a diff leave the records of the earlier
    groups as they are: the log on [tgs1 ++ tgs2] is the log on [tgs1]
    followed by the log on [tgs2], or by nothing when [tgs1] holds an
    edited group with an edited task without objects. *)
Theorem planDiff_app (ty : string) (tgs1 tgs2 : list TaskGroupDiff) :
  written (planDiff (mkJobDiff ty (tgs1 ++ tgs2)))
  = written (planDiff (mkJobDiff ty tgs1))
    ++ (if abortsWalk tgs1 then [] else written (planDiff (mkJobDiff ty tgs2))).
Proof.
  rewrite !planDiff_written. cbn [TaskGroups].
  rewrite forRangeRet_app_written.
  destruct (walk_reports tgs1) as (-> & _).
  destruct (abortsWalk tgs1); reflexivity.
Qed.

(** ** The text of a detail record, all four cases *)

(** X5. The message [logDiffObj] writes is always [levant/plan: ], the
    group segment (empty for an empty group name), the task segment (empty
    for an empty task name) and the change, in this order. In particular,
    with an empty group name and a non-empty task name the line reads
    [levant/plan: and task <T> plan indicates change of ...]. *)
Theorem logDiffObj_segments (g t objName fName fOld fNew : string) :
  logDiffObj g t objName fName fOld fNew
  = emit Info None
      ("levant/plan: " +:+ groupSegment g +:+ taskSegment t
       +:+ "plan indicates change of " +:+ objName +:+ ":" +:+ fName
       +:+ " from " +:+ fOld +:+ " to " +:+ fNew)
  /\ (t <> "" ->
      logDiffObj "" t objName fName fOld fNew
      = emit Info None
          ("levant/plan: and task " +:+ t
           +:+ " plan indicates change of " +:+ objName +:+ ":" +:+ fName
           +:+ " from " +:+ fOld +:+ " to " +:+ fNew)).
Proof.
  split.
  - unfold logDiffObj, groupSegment, taskSegment.
    destruct (String.eqb_spec g "") as [->|Hg], (String.eqb_spec t "") as [->|Ht];
      cbv zeta.
    + reflexivity.
    + destruct t as [|b t]; [contradiction|].
      change ("" +:+ ("and task " +:+ String b t +:+ " "))
        with ("and task " +:+ String b t +:+ " ").
      rewrite !string_app_assoc. reflexivity.
    + rewrite !string_app_assoc. reflexivity.
    + rewrite !string_app_assoc. reflexivity.
  - intros Ht. apply String.eqb_neq in Ht.
    unfold logDiffObj. rewrite Ht.
    change ("" =? "")%string with true. cbv iota zeta.
    change ("" +:+ ("and task " +:+ t +:+ " ")) with ("and task " +:+ t +:+ " ").
    rewrite !string_app_assoc. reflexivity.
Qed.

Lemma logDiffObj_segments_witness :
  logDiffObj "" "redis" "resources" "cpu" "500" "1000"
  = emit Info None
      "levant/plan: and task redis plan indicates change of resources:cpu from 500 to 1000".
Proof.
  apply (proj2 (logDiffObj_segments "" "redis" "resources" "cpu" "500" "1000")).
  discriminate.
Defined.

(** ** Error records and panics of the decision *)

Lemma details_no_error (l : list Event) :
  Forall isDetail l -> List.filter isError l = [].
Proof.
  induction 1 as [|e l He _ IH]; [reflexivity|].
  apply detail_shape in He. destruct He as (Hi & _).
  cbn. unfold isInfo in Hi. unfold isError.
  destruct (level e); try discriminate; exact IH.
Qed.

Lemma plan_no_request_error (r : option JobPlanResponse) :
  plan (mkPlanReply r None)
  = match r with
    | Some (mkJobPlanResponse (Some d)) => plan (planned d)
    | _ => (Panicked, [triggerEvent])
    end.
Proof. destruct r as [[[d|]]|]; reflexivity. Qed.

(** X6. [plan] writes an error-level record exactly when it returns
    false, and then exactly one: a run that returns true, or that panics,
    leaves no error-level record, whatever the walker found. *)
Theorem plan_error_record_iff_false (reply : PlanReply) :
  List.length (List.filter isError (written (plan reply)))
  = match result (plan reply) with
    | Returned false => 1
    | Returned true => 0
    | Panicked => 0
    end.
Proof.
  destruct reply as [r [e|]]; [reflexivity|].
  rewrite plan_no_request_error.
  destruct r as [[[d|]]|]; try reflexivity.
  rewrite plan_planned.
  destruct (JType d =? diffTypeAdded)%string; [reflexivity|].
  destruct (JType d =? diffTypeNone)%string; [reflexivity|].
  destruct (JType d =? diffTypeEdited)%string; [|reflexivity].
  unfold written, result. cbn [fst snd].
  change (List.filter isError (triggerEvent :: snd (planDiff d)))
    with (List.filter isError (written (planDiff d))).
  rewrite details_no_error by apply planDiff_details. reflexivity.
Qed.


